(** * StellArts landing page: the Hero and Stats view components

    A shallow embedding of [frontend/components/home/Hero.tsx] and
    [frontend/components/home/Stats.tsx]: the count formatter
    [formatCount], the two render functions and the mount-time fetch of
    each component, together with the part of the JavaScript number
    semantics they rely on (IEEE 754 binary64 values, [Number::toString],
    [Number.prototype.toFixed], the comparison operators). *)

From Stdlib Require Import ZArith QArith Qround Qabs Lia Lqa Bool List Ascii String.
From Stdlib Require Import SpecFloat.
From stdpp Require Import gmap strings.

Local Open Scope Z_scope.

(** ** JavaScript numbers *)

(** A JavaScript number is an IEEE 754 binary64 value: 53 bits of
    precision, infinities at exponent 1024. *)
Module Number.

Definition prec : Z := 53.
Definition emax : Z := 1024.

Abbreviation number := spec_float.

(** A numeric literal of the source that denotes an integer. *)
Definition of_Z (z : Z) : number := binary_normalize prec emax z 0 false.

Definition NaN : number := S754_nan.
Definition Infinity : number := S754_infinity false.

Definition div (x y : number) : number := SFdiv prec emax x y.
Definition opp (x : number) : number := SFopp x.

(** [x === y] on two numbers (Number::equal): NaN differs from everything,
    the two zeros are equal. *)
Definition strict_eq (x y : number) : bool :=
  match SFcompare x y with
  | Some Eq => true
  | _ => false
  end.

(** [x < y] (IsLessThan yields true; undefined, on a NaN, counts as false). *)
Definition lt (x y : number) : bool :=
  match SFcompare x y with
  | Some Lt => true
  | _ => false
  end.

(** [x >= y]: IsLessThan(x, y) is neither true nor undefined. *)
Definition ge (x y : number) : bool :=
  match SFcompare x y with
  | Some Lt | None => false
  | Some _ => true
  end.

(** [===] between two values of type [number | undefined]. *)
Definition strict_eq_opt (a b : option number) : bool :=
  match a, b with
  | None, None => true
  | Some x, Some y => strict_eq x y
  | _, _ => false
  end.

(** ToBoolean on a number: false exactly on +0, -0 and NaN. *)
Definition to_boolean (x : number) : bool :=
  match x with
  | S754_zero _ | S754_nan => false
  | _ => true
  end.

(** *** Mathematical values *)

Definition pow2 (e : Z) : Q :=
  match e with
  | Z0 => 1
  | Zpos p => inject_Z (2 ^ Zpos p)
  | Zneg p => 1 # (2 ^ p)
  end.

Definition pow10 (e : Z) : Q :=
  match e with
  | Z0 => 1
  | Zpos p => inject_Z (10 ^ Zpos p)
  | Zneg p => 1 # (10 ^ p)
  end.

(** The magnitude [m * 2^e] of a finite number. *)
Definition magnitude (m : positive) (e : Z) : Q := inject_Z (Zpos m) * pow2 e.

(** The mathematical value of a finite number; the infinities and NaN have
    none. *)
Definition R (x : number) : option Q :=
  match x with
  | S754_zero _ => Some 0%Q
  | S754_finite s m e => Some (if s then - magnitude m e else magnitude m e)%Q
  | S754_infinity _ | S754_nan => None
  end.

Definition Qltb (x y : Q) : bool := negb (Qle_bool y x).

Definition eqb (x y : number) : bool :=
  match x, y with
  | S754_zero s1, S754_zero s2 => Bool.eqb s1 s2
  | S754_infinity s1, S754_infinity s2 => Bool.eqb s1 s2
  | S754_nan, S754_nan => true
  | S754_finite s1 m1 e1, S754_finite s2 m2 e2 =>
      Bool.eqb s1 s2 && Pos.eqb m1 m2 && Z.eqb e1 e2
  | _, _ => false
  end.

(** The number nearest to the positive rational [a / b], ties to even: the
    correctly rounded quotient of the two integers. *)
Definition of_ratio (a b : positive) : number :=
  let '(mz, ez, lz) := SFdiv_core_binary prec emax (Zpos a) 0 (Zpos b) 0 in
  binary_round_aux prec emax false mz ez lz.

Definition of_Q (q : Q) : number :=
  match Qnum q with
  | Zpos a => of_ratio a (Qden q)
  | _ => S754_zero false
  end.

End Number.

Import Number.

(** ** Decimal digit strings *)

Definition digit (d : Z) : string :=
  match d with
  | 0 => "0" | 1 => "1" | 2 => "2" | 3 => "3" | 4 => "4"
  | 5 => "5" | 6 => "6" | 7 => "7" | 8 => "8" | _ => "9"
  end.

Fixpoint decimal_fuel (fuel : nat) (z : Z) : string :=
  match fuel with
  | O => digit z
  | S fuel' =>
      if z <? 10 then digit z
      else decimal_fuel fuel' (z / 10) +:+ digit (z mod 10)
  end.

(** The digits of a non-negative integer in radix 10, most significant
    first, with no leading zero. *)
Definition decimal (z : Z) : string := decimal_fuel (Z.to_nat (Z.log2 z)) z.

(** Reading a digit string back: the integer it denotes in radix 10. *)
Definition digit_value (c : ascii) : Z := Z.of_nat (nat_of_ascii c) - 48.

Fixpoint digits_value (acc : Z) (s : string) : Z :=
  match s with
  | EmptyString => acc
  | String c s' => digits_value (10 * acc + digit_value c) s'
  end.

Fixpoint zeros (n : nat) : string :=
  match n with
  | O => ""
  | S n' => "0" +:+ zeros n'
  end.

Definition str_take (n : nat) (s : string) : string := String.substring 0 n s.
Definition str_drop (n : nat) (s : string) : string :=
  String.substring n (String.length s - n) s.

Fixpoint last_char (s : string) : option ascii :=
  match s with
  | EmptyString => None
  | String c EmptyString => Some c
  | String _ s' => last_char s'
  end.

(** ** Number::toString *)

Module ToString.

(** The [n] with [10^(n-1) <= v < 10^n], for a positive rational [v]. *)
Definition decimal_exponent (v : Q) : Z :=
  let (a, b) := v in
  if Zpos b <=? a then Z.of_nat (String.length (decimal (a / Zpos b)))
  else 1 - Z.of_nat (String.length (decimal ((Zpos b - 1) / a))).

Definition scaled (s n k : Z) : Q := inject_Z s * pow10 (n - k).

(** [k >= 1], [10^(k-1) <= s < 10^k] and the number nearest to
    [s * 10^(n-k)] is [x]. *)
Definition admissible (x : number) (k : Z) (c : Z * Z) : bool :=
  let '(n, s) := c in
  (10 ^ (k - 1) <=? s) && (s <? 10 ^ k) && Number.eqb (of_Q (scaled s n k)) x.

(** The integers [s] on either side of [v / 10^(n-k)], for the exponents
    [n] next to the decimal exponent of [v]. *)
Definition candidates (x : number) (v : Q) (k : Z) : list (Z * Z) :=
  let n0 := decimal_exponent v in
  flat_map
    (fun n =>
       let s := Qfloor (v / pow10 (n - k)) in
       List.filter (admissible x k) [(n, s); (n, s + 1)])
    [n0 - 1; n0; n0 + 1].

(** Of two candidates, the one whose value is closer to [v]; on a tie, the
    one whose [s] is even. *)
Definition closer (v : Q) (k : Z) (c1 c2 : Z * Z) : Z * Z :=
  let d1 := Qabs (scaled (snd c1) (fst c1) k - v) in
  let d2 := Qabs (scaled (snd c2) (fst c2) k - v) in
  if Qltb d2 d1 then c2
  else if Qltb d1 d2 then c1
  else if Z.even (snd c1) then c1 else c2.

Definition best (v : Q) (k : Z) (cs : list (Z * Z)) : option (Z * Z) :=
  match cs with
  | [] => None
  | c :: cs' => Some (fold_left (closer v k) cs' c)
  end.

(** The triple [(n, k, s)] with [k] as small as possible; seventeen digits
    always identify a binary64 value, so the search stops there. *)
Fixpoint shortest_from (x : number) (v : Q) (fuel : nat) (k : Z) : Z * Z * Z :=
  match best v k (candidates x v k) with
  | Some (n, s) => (n, k, s)
  | None =>
      match fuel with
      | O => let n0 := decimal_exponent v in (n0, k, Qfloor (v / pow10 (n0 - k)))
      | S fuel' => shortest_from x v fuel' (k + 1)
      end
  end.

Definition shortest (x : number) (v : Q) : Z * Z * Z := shortest_from x v 16 1.

(** Steps 5 to 10 of Number::toString, for a positive finite [x] of
    value [v]. *)
Definition positive_finite (x : number) (v : Q) : string :=
  let '(n, k, s) := shortest x v in
  let ds := decimal s in
  if (-5 <=? n) && (n <=? 21) then
    if k <=? n then ds +:+ zeros (Z.to_nat (n - k))
    else if 0 <? n then
      str_take (Z.to_nat n) ds +:+ "." +:+ str_drop (Z.to_nat n) ds
    else "0." +:+ zeros (Z.to_nat (- n)) +:+ ds
  else
    let exponentSign := if n <? 0 then "-" else "+" in
    let ex := decimal (Z.abs (n - 1)) in
    if k =? 1 then ds +:+ "e" +:+ exponentSign +:+ ex
    else str_take 1 ds +:+ "." +:+ str_drop 1 ds +:+ "e" +:+ exponentSign +:+ ex.

End ToString.

(** [Number::toString(x, 10)], which is also what a template literal
    [`${x}`] produces for a number. *)
Definition toString (x : number) : string :=
  match x with
  | S754_nan => "NaN"
  | S754_zero _ => "0"
  | S754_infinity s => if s then "-Infinity" else "Infinity"
  | S754_finite s m e =>
      (if s then "-" else "") +:+
      ToString.positive_finite (S754_finite false m e) (magnitude m e)
  end.

(** The integer [n] for which [n / 10^f - v] is as close to zero as
    possible, the larger one when there are two. *)
Definition nearest_scaled (f : nat) (v : Q) : Z :=
  Qfloor (v * pow10 (Z.of_nat f) + (1 # 2)).

(** [Number.prototype.toFixed(f)], for [0 <= f <= 100]. *)
Definition toFixed (f : nat) (x : number) : string :=
  match R x with
  | None => toString x
  | Some v =>
      let s := if Qltb v 0 then "-" else "" in
      let v := if Qltb v 0 then (- v)%Q else v in
      let m :=
        if Qle_bool (pow10 21) v then toString (SFabs x)
        else
          let n := nearest_scaled f v in
          let m := if n =? 0 then "0" else decimal n in
          match f with
          | O => m
          | S _ =>
              let k := String.length m in
              let m := if (k <=? f)%nat then zeros (f + 1 - k) +:+ m else m in
              let k := if (k <=? f)%nat then (f + 1)%nat else k in
              str_take (k - f) m +:+ "." +:+ str_drop (k - f) m
          end
      in
      s +:+ m
  end.

(** A non-negative rational rendered with exactly one decimal place: the
    nearest multiple of one tenth, written as integer part, point, one
    digit. This is the rendering the specification names; [toFixed 1] is
    the one the code calls. *)
Definition one_decimal (v : Q) : string :=
  let n := nearest_scaled 1 v in
  decimal (n / 10) +:+ "." +:+ digit (n mod 10).

(** ** Hero.tsx: the count formatter *)

(** [undefined] is [None]. *)
Definition formatCount (n : option number) : string :=
  match n with
  | None => "Coming soon"
  | Some n =>
      if strict_eq n (of_Z 0) then "Coming soon"
      else if ge n (of_Z 1000) then toFixed 1 (div n (of_Z 1000)) +:+ "K+"
      else toString n +:+ " available"
  end.

(** ** The runtime the two components run on *)

(** *** Outbound requests *)

Record Request := {
  method : string;
  url : string;
  headers : list (string * string);
  body : option string
}.

(** [fetch(url)] with no second argument: a GET with no body and no headers
    of the caller's. *)
Definition fetch_request (u : string) : Request :=
  {| method := "GET"; url := u; headers := []; body := None |}.

(** [process.env.NEXT_PUBLIC_API_URL || "http://localhost:8000"]: the
    variable is a string or undefined, and the empty string is falsy. *)
Definition API_BASE (NEXT_PUBLIC_API_URL : option string) : string :=
  match NEXT_PUBLIC_API_URL with
  | Some (String c s) => String c s
  | Some EmptyString | None => "http://localhost:8000"
  end.

(** *** Promises *)

Inductive settlement (A : Type) : Type :=
  | Fulfilled (a : A)
  | Rejected.
Arguments Fulfilled {A} a.
Arguments Rejected {A}.

(** What the network does with a fetch: it rejects, or it fulfils with a
    response whose [json()] in turn fulfils with the parsed body or rejects
    (the body is not JSON). The status is carried along and never read. *)
Inductive outcome (D : Type) : Type :=
  | NetworkError
  | Response (status : Z) (json : settlement D).
Arguments NetworkError {D}.
Arguments Response {D} status json.

(** *** A mounted component with one state slot and one effect *)

Section Component.

Context {St : Type}.

Record instance := {
  state : St;                     (* the useState slot *)
  effect_deps : option (list nat);(* dependency list of the last commit *)
  pending : nat;                  (* fetch promises not settled yet *)
  requests : list Request;        (* requests sent, oldest first *)
  updates : list St;              (* arguments of the setter calls, oldest first *)
  unhandled : nat                 (* rejections no handler caught *)
}.

(** [useState(init)] before the first render. *)
Definition initial (init : St) : instance :=
  {| state := init; effect_deps := None; pending := 0; requests := [];
     updates := []; unhandled := 0 |}.

(** A promise reaction runs against the instance: it may call the setter,
    and it fulfils or rejects. *)
Definition promise (A : Type) : Type := instance -> settlement A * instance.

Definition resolved {A} (r : settlement A) : promise A := fun i => (r, i).

(** [p.then(f)] *)
Definition then_ {A B} (p : promise A) (f : A -> promise B) : promise B :=
  fun i =>
    match p i with
    | (Fulfilled a, i') => f a i'
    | (Rejected, i') => (Rejected, i')
    end.

(** [p.catch(h)] *)
Definition catch_ {A} (p : promise A) (h : unit -> promise A) : promise A :=
  fun i =>
    match p i with
    | (Fulfilled a, i') => (Fulfilled a, i')
    | (Rejected, i') => h tt i'
    end.

(** The setter returned by [useState]. *)
Definition setState (v : St) : promise unit :=
  fun i =>
    (Fulfilled tt,
     {| state := v; effect_deps := effect_deps i; pending := pending i;
        requests := requests i; updates := updates i ++ [v];
        unhandled := unhandled i |}).

Definition json (r : settlement St) : promise St := resolved r.

Variable null : St.
Variable endpoint : string.

(** [.then((r) => r.json()).then((data) => set(data)).catch(() => set(null))]
    on the promise of a fetch that settles as [o]. *)
Definition reactions (o : outcome St) : promise unit :=
  let fetched : promise (settlement St) :=
    resolved match o with
             | NetworkError => Rejected
             | Response _ r => Fulfilled r
             end in
  catch_
    (then_ (then_ fetched (fun r => json r)) (fun data => setState data))
    (fun _ => setState null).

(** The effect body: one call of [fetch]. *)
Definition effect (i : instance) : instance :=
  {| state := state i; effect_deps := effect_deps i; pending := S (pending i);
     requests := requests i ++ [fetch_request endpoint];
     updates := updates i; unhandled := unhandled i |}.

(** The dependency list both components pass to [useEffect]. *)
Definition deps : list nat := [].

(** [useEffect] runs the effect after the first commit, and after a later
    one when the dependency list differs from the previous one. *)
Definition effect_due (prev : option (list nat)) (next : list nat) : bool :=
  match prev with
  | None => true
  | Some l => negb (bool_decide (l = next))
  end.

Inductive event : Type :=
  | Render                    (* React renders and commits the component *)
  | Settle (o : outcome St).  (* the network settles the oldest fetch *)

Definition commit (i : instance) : instance :=
  let due := effect_due (effect_deps i) deps in
  let i' := {| state := state i; effect_deps := Some deps; pending := pending i;
               requests := requests i; updates := updates i;
               unhandled := unhandled i |} in
  if due then effect i' else i'.

Definition settle (o : outcome St) (i : instance) : instance :=
  match pending i with
  | O => i
  | S p =>
      let i0 := {| state := state i; effect_deps := effect_deps i; pending := p;
                   requests := requests i; updates := updates i;
                   unhandled := unhandled i |} in
      match reactions o i0 with
      | (Fulfilled _, i') => i'
      | (Rejected, i') =>
          {| state := state i'; effect_deps := effect_deps i';
             pending := pending i'; requests := requests i';
             updates := updates i'; unhandled := S (unhandled i') |}
      end
  end.

Definition step (i : instance) (e : event) : instance :=
  match e with
  | Render => commit i
  | Settle o => settle o i
  end.

Definition run (i : instance) (es : list event) : instance := fold_left step es i.

(** What the setter receives for an outcome. *)
Definition applied (o : outcome St) : St :=
  match o with
  | Response _ (Fulfilled data) => data
  | Response _ Rejected | NetworkError => null
  end.

Definition failed (o : outcome St) : bool :=
  match o with
  | Response _ (Fulfilled _) => false
  | _ => true
  end.

Definition is_settle (e : event) : bool :=
  match e with
  | Settle _ => true
  | Render => false
  end.

Definition is_render (e : event) : bool := negb (is_settle e).

Fixpoint first_settle (es : list event) : option (outcome St) :=
  match es with
  | [] => None
  | Settle o :: _ => Some o
  | Render :: es' => first_settle es'
  end.

(** The outcome the network delivers for the fetch of the first render:
    the first settlement that follows it. *)
Fixpoint first_outcome (es : list event) : option (outcome St) :=
  match es with
  | [] => None
  | Render :: es' => first_settle es'
  | Settle _ :: es' => first_outcome es'
  end.

(** The instance after its first commit, and after its fetch has settled. *)
Definition mounted (init : St) : instance :=
  {| state := init; effect_deps := Some deps; pending := 1;
     requests := [fetch_request endpoint]; updates := []; unhandled := 0 |}.

Definition settled (o : outcome St) : instance :=
  {| state := applied o; effect_deps := Some deps; pending := 0;
     requests := [fetch_request endpoint]; updates := [applied o];
     unhandled := 0 |}.

(** The shape of an instance over its life: nothing has happened before
    the first commit; from then on exactly one request has been sent, and
    its promise is either still pending or has called the setter once. *)
Definition consistent (i : instance) : Prop :=
  unhandled i = 0%nat /\
  match effect_deps i with
  | None => requests i = [] /\ pending i = 0%nat /\ updates i = []
  | Some l =>
      l = deps /\ requests i = [fetch_request endpoint] /\
      (pending i + List.length (updates i) = 1)%nat
  end.

End Component.

Arguments instance St : clear implicits.
Arguments event St : clear implicits.

(** ** Hero.tsx *)

Module Hero.

(** [ArtisanCounts]: an object from trade names to numbers; a field the
    response does not carry reads as undefined. *)
Abbreviation ArtisanCounts := (gmap string number).

(** What [r.json()] yields when it is not null. The body is stored as it
    was parsed, with no check that it is an object. The fields of an
    object hold numbers, as the interface declares; the items of an array
    are never read. *)
Inductive body : Type :=
  | JObject (fields : ArtisanCounts)
  | JArray
  | JString (s : string)
  | JNumber (x : number)
  | JBoolean (b : bool).

Definition endpoint (env : option string) : string :=
  API_BASE env +:+ "/api/v1/artisans/counts".

(** [useState<ArtisanCounts | null>(null)] *)
Definition init : instance (option body) := initial None.

Definition step (env : option string) :=
  @step (option body) None (endpoint env).
Definition run (env : option string) :=
  @run (option body) None (endpoint env).

(** ToBoolean of [counts]: null, false, the empty string, the zeros and
    NaN are falsy; every object and array is truthy. *)
Definition truthy (counts : option body) : bool :=
  match counts with
  | None => false
  | Some (JObject _) | Some JArray => true
  | Some (JString EmptyString) => false
  | Some (JString (String _ _)) => true
  | Some (JNumber x) => to_boolean x
  | Some (JBoolean b) => b
  end.

(** The four properties the cards read. *)
Definition trades : list string :=
  ["plumbers"; "electricians"; "carpenters"; "painters"].

(** [counts.trade] for one of the four trade names, on a truthy [counts]:
    the field of an object when it has one, and undefined otherwise, also
    on an array, a string, a number or a boolean, none of which has a
    property of these names. *)
Definition get (b : body) (trade : string) : option number :=
  match b with
  | JObject fields => fields !! trade
  | _ => None
  end.

(** [{counts ? formatCount(counts.field) : placeholder}] *)
Definition card (counts : option body) (field placeholder : string) : string :=
  match counts with
  | Some b => if truthy counts then formatCount (get b field) else placeholder
  | None => placeholder
  end.

Record view := {
  plumbers : string;
  electricians : string;
  carpenters : string;
  painters : string
}.

Definition render (counts : option body) : view :=
  {| plumbers := card counts "plumbers" "Near you";
     electricians := card counts "electricians" "On demand";
     carpenters := card counts "carpenters" "Verified";
     painters := card counts "painters" "Top rated" |}.

End Hero.

(** ** Stats.tsx *)

Module Stats.

Record PlatformStats := {
  artisan_count : number;
  completed_bookings : number;
  average_rating : option number   (* number | null *)
}.

Definition endpoint (env : option string) : string :=
  API_BASE env +:+ "/api/v1/stats/".

(** [useState<PlatformStats | null>(null)] *)
Definition init : instance (option PlatformStats) := initial None.

Definition step (env : option string) :=
  @step (option PlatformStats) None (endpoint env).
Definition run (env : option string) :=
  @run (option PlatformStats) None (endpoint env).

Record view := {
  active_artisans : string;
  jobs_completed : string;
  rating : string
}.

(** [stats?.average_rating ? `${stats.average_rating.toFixed(1)}\u2605` : "New"] *)
Definition rating_slot (stats : option PlatformStats) : string :=
  match stats with
  | Some s =>
      match average_rating s with
      | Some r => if to_boolean r then toFixed 1 r +:+ "★" else "New"
      | None => "New"
      end
  | None => "New"
  end.

Definition render (stats : option PlatformStats) : view :=
  {| active_artisans :=
       match stats with
       | Some s => toString (artisan_count s) +:+ "+"
       | None => "—"
       end;
     jobs_completed :=
       match stats with
       | Some s => toString (completed_bookings s) +:+ "+"
       | None => "—"
       end;
     rating := rating_slot stats |}.

End Stats.

(** ** The page: Hero and the Stats widget it renders *)

Module Page.

Record page := {
  hero : instance (option Hero.body);
  stats : instance (option Stats.PlatformStats)
}.

Definition init : page := {| hero := Hero.init; stats := Stats.init |}.

Inductive page_event : Type :=
  | HeroEvent (e : event (option Hero.body))
  | StatsEvent (e : event (option Stats.PlatformStats)).

(** Rendering Hero renders its child [<Stats />] as well. *)
Definition step (env : option string) (p : page) (e : page_event) : page :=
  match e with
  | HeroEvent Render =>
      {| hero := Hero.step env (hero p) Render;
         stats := Stats.step env (stats p) Render |}
  | HeroEvent e' => {| hero := Hero.step env (hero p) e'; stats := stats p |}
  | StatsEvent e' => {| hero := hero p; stats := Stats.step env (stats p) e' |}
  end.

Definition run (env : option string) (p : page) (es : list page_event) : page :=
  fold_left (step env) es p.

Definition all_requests (p : page) : list Request :=
  requests (hero p) ++ requests (stats p).

End Page.

(** ** The events each component of the page sees *)

Definition hero_events (es : list Page.page_event)
  : list (event (option Hero.body)) :=
  flat_map (fun e => match e with
                     | Page.HeroEvent e' => [e']
                     | Page.StatsEvent _ => []
                     end) es.

(** A render of Hero is a render of its child as well. *)
Definition stats_events (es : list Page.page_event)
  : list (event (option Stats.PlatformStats)) :=
  flat_map (fun e => match e with
                     | Page.HeroEvent Render => [Render]
                     | Page.HeroEvent (Settle _) => []
                     | Page.StatsEvent e' => [e']
                     end) es.

(** ** The Hero without state *)

(** The version of Hero.tsx that has no state and no effect: its four
    cards carry fixed texts. *)
Module StaticHero.

Definition render : Hero.view :=
  {| Hero.plumbers := "Near you"; Hero.electricians := "On demand";
     Hero.carpenters := "Verified"; Hero.painters := "Top rated" |}.

End StaticHero.

(** * Properties *)

(** ** Strict equality and the comparisons *)

Lemma of_Z_0 : of_Z 0 = S754_zero false.
Proof. reflexivity. Qed.

Lemma of_Z_1000 : of_Z 1000 = S754_finite false 8796093022208000 (-43).
Proof. reflexivity. Qed.

Lemma strict_eq_zero (x : number) :
  strict_eq x (of_Z 0) = true <-> exists s, x = S754_zero s.
Proof.
  rewrite of_Z_0. split.
  - destruct x as [s|s| |s m e]; simpl; try discriminate.
    + eauto.
    + destruct s; discriminate.
    + destruct s; discriminate.
  - intros [s ->]. reflexivity.
Qed.

(** Two strictly equal numbers are the same value, or the two zeros. *)
Lemma strict_eq_inv (x y : number) :
  strict_eq x y = true ->
  x = y \/ exists s1 s2, x = S754_zero s1 /\ y = S754_zero s2.
Proof.
  unfold strict_eq.
  destruct x as [s1|s1| |s1 m1 e1], y as [s2|s2| |s2 m2 e2]; simpl;
    try discriminate; try (destruct s1; discriminate);
    try (destruct s2; discriminate).
  - eauto.
  - destruct s1, s2; try discriminate; auto.
  - destruct s1, s2; try discriminate;
      destruct (Z.compare_spec e1 e2) as [->| |]; try discriminate;
      destruct (Pos.compare_cont Eq m1 m2) eqn:Hm; try discriminate;
      apply Pos.compare_eq in Hm; subst; auto.
Qed.

(** ** Strings *)

Lemma app_nil_l_s (t : string) : "" +:+ t = t.
Proof. reflexivity. Qed.

Lemma app_cons_s (c : ascii) (s t : string) :
  String c s +:+ t = String c (s +:+ t).
Proof. reflexivity. Qed.

Lemma length_app_s (a b : string) :
  String.length (a +:+ b) = (String.length a + String.length b)%nat.
Proof.
  induction a as [|x a IH]; [reflexivity|].
  rewrite app_cons_s. simpl. now rewrite IH.
Qed.

Lemma last_char_app (s t : string) :
  t <> EmptyString -> last_char (s +:+ t) = last_char t.
Proof.
  intros Ht. induction s as [|c s IH]; [reflexivity|].
  rewrite <- IH, app_cons_s.
  destruct (s +:+ t) eqn:E; [|reflexivity].
  destruct s; [rewrite app_nil_l_s in E; congruence | discriminate].
Qed.

(** ** formatCount: the three branches *)

Lemma formatCount_K (x : number) :
  strict_eq x (of_Z 0) = false -> ge x (of_Z 1000) = true ->
  formatCount (Some x) = toFixed 1 (div x (of_Z 1000)) +:+ "K+".
Proof. intros H0 H1. unfold formatCount. now rewrite H0, H1. Qed.

Lemma formatCount_otherwise (x : number) :
  strict_eq x (of_Z 0) = false -> ge x (of_Z 1000) = false ->
  formatCount (Some x) = toString x +:+ " available".
Proof. intros H0 H1. unfold formatCount. now rewrite H0, H1. Qed.

(** NaN fails both tests and falls through to the last branch. *)
Example formatCount_NaN : formatCount (Some NaN) = "NaN available".
Proof. reflexivity. Qed.

Lemma ge_1000_nonzero (x : number) :
  ge x (of_Z 1000) = true -> strict_eq x (of_Z 0) = false.
Proof.
  rewrite of_Z_1000, of_Z_0.
  destruct x as [s|s| |s m e]; simpl; try discriminate; auto;
    destruct s; auto.
Qed.

(** C1: for every input [n], if [n] is undefined or [n === 0] holds, the
    result of [formatCount] is the placeholder "Coming soon". *)
Theorem formatCount_undefined_or_zero (n : option number)
  (H : n = None \/ exists x, n = Some x /\ strict_eq x (of_Z 0) = true) :
  formatCount n = "Coming soon".
Proof.
  destruct H as [->|[x [-> Hx]]]; [reflexivity|].
  unfold formatCount. now rewrite Hx.
Qed.

Lemma formatCount_undefined_or_zero_witness :
  formatCount None = "Coming soon" /\
  formatCount (Some (of_Z 0)) = "Coming soon" /\
  formatCount (Some (opp (of_Z 0))) = "Coming soon".
Proof.
  split; [|split].
  - apply formatCount_undefined_or_zero. left. reflexivity.
  - apply formatCount_undefined_or_zero. right. exists (of_Z 0).
    split; reflexivity.
  - apply formatCount_undefined_or_zero. right. exists (opp (of_Z 0)).
    split; reflexivity.
Defined.

(** [formatCount] does not tell apart two inputs that are [===] to each
    other: the two zeros give the same string. *)
Theorem formatCount_strict_eq (a b : option number)
  (H : a = b \/ strict_eq_opt a b = true) :
  formatCount a = formatCount b.
Proof.
  destruct H as [->|H]; [reflexivity|].
  destruct a as [x|], b as [y|]; simpl in H; try discriminate; [|reflexivity].
  apply strict_eq_inv in H. destruct H as [->|(s1 & s2 & -> & ->)];
    reflexivity.
Qed.

Lemma formatCount_both_zeros :
  formatCount (Some (of_Z 0)) = formatCount (Some (opp (of_Z 0))).
Proof. apply formatCount_strict_eq. right. reflexivity. Qed.

(** C9: every defined [n] that is not zero and is strictly below 1000, be
    it negative or fractional, is rendered as "{n} available", which is
    neither the placeholder nor a "K+" form. *)
Theorem formatCount_below_1000 (x : number)
  (Hnz : strict_eq x (of_Z 0) = false) (Hlt : lt x (of_Z 1000) = true) :
  formatCount (Some x) = toString x +:+ " available" /\
  formatCount (Some x) <> "Coming soon" /\
  forall p, formatCount (Some x) <> p +:+ "K+".
Proof.
  assert (Hge : ge x (of_Z 1000) = false).
  { unfold ge, lt in *. destruct (SFcompare x (of_Z 1000)) as [[]|];
      auto; discriminate. }
  rewrite (formatCount_otherwise _ Hnz Hge). split; [reflexivity|]. split.
  - intros E. apply (f_equal last_char) in E.
    rewrite last_char_app in E by discriminate. discriminate.
  - intros p E. apply (f_equal last_char) in E.
    rewrite !last_char_app in E by discriminate. discriminate.
Qed.

Lemma formatCount_below_1000_witness :
  formatCount (Some (of_Z (-5))) = "-5 available" /\
  formatCount (Some (div (of_Z 5) (of_Z 2))) = "2.5 available".
Proof.
  split.
  - apply (formatCount_below_1000 (of_Z (-5))); reflexivity.
  - apply (formatCount_below_1000 (div (of_Z 5) (of_Z 2))); reflexivity.
Defined.

(** ** Decimal digit strings *)

Lemma digit_length (d : Z) : String.length (digit d) = 1%nat.
Proof. destruct d as [|p|p]; try reflexivity.
  do 4 (destruct p as [p|p|]; try reflexivity).
Qed.

Lemma log2_div10 (z : Z) : 10 <= z -> Z.log2 (z / 10) <= Z.log2 z - 1.
Proof.
  intros Hz.
  assert (Hpos : 0 < z / 10) by (apply Z.div_str_pos; lia).
  pose proof (Z.log2_spec z ltac:(lia)) as [_ Hup].
  pose proof (Z.log2_nonneg z) as Hl.
  pose proof (Z.log2_le_mono 10 z Hz) as Hl3. change (Z.log2 10) with 3 in Hl3.
  enough (Z.log2 (z / 10) < Z.log2 z) by lia.
  apply Z.log2_lt_pow2; [assumption|].
  rewrite Z.pow_succ_r in Hup by assumption.
  pose proof (Z.pow_pos_nonneg 2 (Z.log2 z) ltac:(lia) Hl).
  apply Z.div_lt_upper_bound; lia.
Qed.

Lemma decimal_fuel_enough (f1 f2 : nat) (z : Z) :
  0 <= z -> Z.log2 z <= Z.of_nat f1 -> Z.log2 z <= Z.of_nat f2 ->
  decimal_fuel f1 z = decimal_fuel f2 z.
Proof.
  revert f2 z. induction f1 as [|f1 IH]; intros f2 z Hz H1 H2.
  - assert (z < 10).
    { destruct (Z.lt_ge_cases z 10) as [|Hge]; [assumption|].
      pose proof (Z.log2_le_mono 10 z Hge) as Hl.
      change (Z.log2 10) with 3 in Hl. lia. }
    destruct f2; simpl; [reflexivity|].
    destruct (Z.ltb_spec z 10); [reflexivity | lia].
  - simpl. destruct (Z.ltb_spec z 10) as [Hlt|Hge].
    + destruct f2; simpl; [reflexivity|].
      destruct (Z.ltb_spec z 10); [reflexivity | lia].
    + pose proof (Z.log2_le_mono 10 z Hge) as Hl.
      change (Z.log2 10) with 3 in Hl.
      pose proof (log2_div10 z Hge) as Hdiv.
      destruct f2 as [|f2]; [lia|]. simpl.
      destruct (Z.ltb_spec z 10); [lia|].
      rewrite (IH f2 (z / 10)); [reflexivity | | lia | lia].
      apply Z.div_pos; lia.
Qed.

Lemma decimal_small (z : Z) : 0 <= z < 10 -> decimal z = digit z.
Proof.
  intros Hz. unfold decimal. destruct (Z.to_nat (Z.log2 z)); simpl;
    [reflexivity|]. destruct (Z.ltb_spec z 10); [reflexivity | lia].
Qed.

Lemma decimal_step (z : Z) :
  10 <= z -> decimal z = decimal (z / 10) +:+ digit (z mod 10).
Proof.
  intros Hz. unfold decimal.
  pose proof (Z.log2_le_mono 10 z Hz) as Hl. change (Z.log2 10) with 3 in Hl.
  destruct (Z.to_nat (Z.log2 z)) as [|f] eqn:Hf; [lia|]. simpl.
  destruct (Z.ltb_spec z 10); [lia|]. f_equal.
  assert (0 <= z / 10) by (apply Z.div_pos; lia).
  pose proof (log2_div10 z Hz).
  pose proof (Z.log2_nonneg (z / 10)).
  apply decimal_fuel_enough; lia.
Qed.

Lemma decimal_nonempty (z : Z) : (1 <= String.length (decimal z))%nat.
Proof.
  destruct (Z.lt_ge_cases z 10) as [Hlt|Hge].
  - unfold decimal. destruct (Z.to_nat (Z.log2 z)); simpl.
    + rewrite digit_length. lia.
    + destruct (Z.ltb_spec z 10); [|lia]. rewrite digit_length. lia.
  - rewrite decimal_step by assumption. rewrite length_app_s, digit_length. lia.
Qed.

Lemma digits_value_app (acc : Z) (a b : string) :
  digits_value acc (a +:+ b) = digits_value (digits_value acc a) b.
Proof.
  revert acc. induction a as [|c a IH]; intros acc; [reflexivity|].
  rewrite app_cons_s. simpl. apply IH.
Qed.

Lemma digits_value_digit (acc d : Z) :
  0 <= d <= 9 -> digits_value acc (digit d) = 10 * acc + d.
Proof.
  intros Hd.
  assert (Hc : d = 0 \/ d = 1 \/ d = 2 \/ d = 3 \/ d = 4 \/ d = 5 \/
               d = 6 \/ d = 7 \/ d = 8 \/ d = 9) by lia.
  repeat destruct Hc as [->|Hc]; try subst d;
    cbv [digit digits_value digit_value];
    match goal with
    | |- context [Z.of_nat ?n] =>
        let v := eval vm_compute in (Z.of_nat n) in
        change (Z.of_nat n) with v
    end; lia.
Qed.

(** [decimal] writes a number that reads back as itself. *)
Lemma decimal_value (z : Z) : 0 <= z -> digits_value 0 (decimal z) = z.
Proof.
  intros Hz. pattern z. apply Zlt_0_ind; [|assumption].
  clear z Hz. intros z IH Hz.
  destruct (Z.lt_ge_cases z 10) as [Hlt|Hge].
  - rewrite decimal_small, digits_value_digit by lia. lia.
  - rewrite (decimal_step z Hge), digits_value_app.
    rewrite IH by (split; [apply Z.div_pos; lia | apply Z.div_lt; lia]).
    rewrite digits_value_digit by (pose proof (Z.mod_pos_bound z 10); lia).
    pose proof (Z.div_mod z 10). lia.
Qed.

(** ** Substrings of a concatenation *)

Lemma substring_all (s : string) : String.substring 0 (String.length s) s = s.
Proof. induction s as [|c s IH]; simpl; [reflexivity | now rewrite IH]. Qed.

Lemma str_take_app (a b : string) : str_take (String.length a) (a +:+ b) = a.
Proof.
  unfold str_take. induction a as [|c a IH].
  - simpl. rewrite app_nil_l_s. destruct b; reflexivity.
  - rewrite app_cons_s. simpl. now rewrite IH.
Qed.

Lemma str_drop_app (a b : string) : str_drop (String.length a) (a +:+ b) = b.
Proof.
  unfold str_drop. rewrite length_app_s.
  replace (String.length a + String.length b - String.length a)%nat
    with (String.length b) by lia.
  induction a as [|c a IH].
  - rewrite app_nil_l_s. apply substring_all.
  - rewrite app_cons_s. simpl. exact IH.
Qed.

(** ** toFixed with one fraction digit *)

Lemma Qltb_false (x y : Q) : (y <= x)%Q -> Qltb x y = false.
Proof. intros H. unfold Qltb. apply Qle_bool_iff in H. now rewrite H. Qed.

Lemma Qltb_true (x y : Q) : Qltb x y = true -> (x < y)%Q.
Proof.
  unfold Qltb. intros H. apply negb_true_iff in H.
  apply Qnot_le_lt. intros Hle. apply Qle_bool_iff in Hle. congruence.
Qed.

Lemma Qle_bool_false (x y : Q) : (y < x)%Q -> Qle_bool x y = false.
Proof.
  intros H. destruct (Qle_bool x y) eqn:E; [|reflexivity].
  apply Qle_bool_iff in E. exfalso. exact (Qlt_not_le _ _ H E).
Qed.

Lemma pow10_1 : pow10 (Z.of_nat 1) = inject_Z 10.
Proof. reflexivity. Qed.

Lemma nearest_scaled_nonneg (v : Q) : (0 <= v)%Q -> 0 <= nearest_scaled 1 v.
Proof.
  intros Hv. unfold nearest_scaled. rewrite pow10_1.
  change 0 with (Qfloor 0). apply Qfloor_resp_le.
  change (inject_Z 10) with (10#1)%Q. lra.
Qed.

Lemma nearest_scaled_close (v : Q) :
  (Qabs (inject_Z (nearest_scaled 1 v) / 10 - v) <= 1 # 20)%Q.
Proof.
  unfold nearest_scaled. rewrite pow10_1.
  set (w := (v * inject_Z 10 + (1 # 2))%Q).
  pose proof (Qfloor_le w) as Hlo. pose proof (Qlt_floor w) as Hhi.
  rewrite inject_Z_plus in Hhi. change (inject_Z 1) with 1%Q in Hhi.
  change (inject_Z 10) with (10#1)%Q in *.
  unfold Qdiv. change (/ 10)%Q with (1 # 10)%Q.
  subst w. apply Qabs_case; intros _; lra.
Qed.

Lemma toFixed_one_decimal (x : number) (v : Q) :
  R x = Some v -> (0 <= v)%Q -> (v < pow10 21)%Q ->
  toFixed 1 x = one_decimal v.
Proof.
  intros HR H0 H21. unfold toFixed, one_decimal. rewrite HR.
  rewrite (Qltb_false _ _ H0), (Qle_bool_false _ _ H21), app_nil_l_s.
  pose proof (nearest_scaled_nonneg v H0) as Hn.
  set (n := nearest_scaled 1 v) in *.
  destruct (Z.eqb_spec n 0) as [->|Hnz]; [reflexivity|].
  destruct (Z.lt_ge_cases n 10) as [Hlt|Hge].
  - rewrite Z.div_small, Z.mod_small by lia.
    rewrite (decimal_small n) by lia. rewrite digit_length.
    change (decimal 0) with "0".
    change (zeros (1 + 1 - 1)) with "0".
    change ((1 <=? 1)%nat) with true. cbv iota.
    change ((1 + 1 - 1)%nat) with (String.length "0").
    now rewrite str_take_app, str_drop_app.
  - rewrite (decimal_step n Hge). rewrite length_app_s, digit_length.
    pose proof (decimal_nonempty (n / 10)) as Hlen.
    destruct (Nat.leb_spec (String.length (decimal (n / 10)) + 1) 1); [lia|].
    replace (String.length (decimal (n / 10)) + 1 - 1)%nat
      with (String.length (decimal (n / 10))) by lia.
    now rewrite str_take_app, str_drop_app.
Qed.

(** ** The quotient by one thousand *)

Lemma ge_1000_inv (x : number) :
  ge x (of_Z 1000) = true ->
  x = S754_infinity false \/ exists m e, x = S754_finite false m e.
Proof.
  rewrite of_Z_1000.
  destruct x as [s|s| |s m e]; simpl; try discriminate;
    destruct s; try discriminate; eauto.
Qed.

Lemma binary_round_aux_sign (sx : bool) (mx ex : Z) (lx : location) :
  match binary_round_aux prec emax sx mx ex lx with
  | S754_finite s _ _ => s = sx
  | _ => True
  end.
Proof.
  unfold binary_round_aux.
  destruct (shr_fexp prec emax mx ex lx) as [mrs' e'].
  destruct (shr_fexp prec emax _ e' loc_Exact) as [mrs'' e''].
  destruct (shr_m mrs''); try exact I.
  destruct (e'' <=? emax - prec); [reflexivity | exact I].
Qed.

Lemma pow2_pos (e : Z) : (0 < pow2 e)%Q.
Proof.
  destruct e as [|p|p]; simpl; try reflexivity.
  unfold Qlt; simpl. pose proof (Z.pow_pos_nonneg 2 (Z.pos p)). lia.
Qed.

Lemma magnitude_pos (m : positive) (e : Z) : (0 < magnitude m e)%Q.
Proof.
  unfold magnitude. apply Qmult_lt_0_compat; [reflexivity | apply pow2_pos].
Qed.

Lemma div_1000_nonneg (x : number) (v : Q) :
  ge x (of_Z 1000) = true -> R (div x (of_Z 1000)) = Some v -> (0 <= v)%Q.
Proof.
  intros Hge HR. rewrite of_Z_1000 in HR.
  destruct (ge_1000_inv x Hge) as [->|(m & e & ->)]; [discriminate|].
  unfold div, SFdiv in HR.
  destruct (SFdiv_core_binary prec emax (Z.pos m) e _ _) as [[mz ez] lz].
  pose proof (binary_round_aux_sign (xorb false false) mz ez lz) as Hs.
  destruct (binary_round_aux prec emax (xorb false false) mz ez lz)
    as [s|s| |s m' e']; simpl in HR; try discriminate.
  - injection HR as <-. apply Qle_refl.
  - injection HR as <-. rewrite Hs. simpl. apply Qlt_le_weak, magnitude_pos.
Qed.

(** ** formatCount on integer counts *)

Lemma available_checked :
  forallb
    (fun z => String.eqb (formatCount (Some (of_Z z)))
                         (decimal z +:+ " available"))
    (map Z.of_nat (seq 1 999)) = true.
Proof. vm_compute. reflexivity. Qed.

(** C2: for every integer [z] with [1 <= z <= 999], [formatCount] returns
    the decimal digits of [z] followed by " available"; at 42 this is
    "42 available". *)
Theorem formatCount_available (z : Z) (H : 1 <= z <= 999) :
  formatCount (Some (of_Z z)) = decimal z +:+ " available".
Proof.
  pose proof available_checked as Hall.
  rewrite forallb_forall in Hall.
  apply String.eqb_eq, Hall.
  apply in_map_iff. exists (Z.to_nat z). split; [lia|].
  apply in_seq. lia.
Qed.

Lemma formatCount_available_witness :
  formatCount (Some (of_Z 42)) = "42 available".
Proof. apply (formatCount_available 42). lia. Defined.

Lemma formatCount_K_one_decimal (n : number) (v : Q) :
  ge n (of_Z 1000) = true -> R (div n (of_Z 1000)) = Some v ->
  (v < pow10 21)%Q ->
  formatCount (Some n) = one_decimal v +:+ "K+".
Proof.
  intros Hge Hq Hlt.
  rewrite (formatCount_K n (ge_1000_nonzero n Hge) Hge). f_equal.
  apply toFixed_one_decimal; [assumption | | assumption].
  exact (div_1000_nonneg n v Hge Hq).
Qed.

(** C3, amended: for every [n >= 1000] whose quotient [n / 1000], as the
    division computes it, is finite and below [10^21], [formatCount]
    returns that quotient with exactly one decimal place, rounded to the
    nearest tenth, followed by "K+"; at 1500 this is "1.5K+". *)
Theorem formatCount_thousands (n : number) (v : Q)
  (Hge : ge n (of_Z 1000) = true)
  (Hq : R (div n (of_Z 1000)) = Some v)
  (Hlt : (v < pow10 21)%Q) :
  formatCount (Some n) = one_decimal v +:+ "K+" /\
  (Qabs (inject_Z (nearest_scaled 1 v) / 10 - v) <= 1 # 20)%Q.
Proof.
  split; [|apply nearest_scaled_close].
  now apply formatCount_K_one_decimal.
Qed.

Lemma formatCount_thousands_witness :
  formatCount (Some (of_Z 1500)) = "1.5K+" /\
  (Qabs (15 / 10 - magnitude 6755399441055744 (-52)) <= 1 # 20)%Q.
Proof.
  apply (formatCount_thousands (of_Z 1500) (magnitude 6755399441055744 (-52)));
    reflexivity.
Defined.

(** At [n = 1e24] the quotient is exactly [10^21], where [toFixed] switches
    to the exponent form of [toString]; at [n = Infinity] the quotient has
    no decimal expansion at all. *)
Lemma formatCount_thousands_counterexample :
  ge Infinity (of_Z 1000) = true /\
  R (div Infinity (of_Z 1000)) = None /\
  formatCount (Some Infinity) = "InfinityK+" /\
  ge (of_Z (10 ^ 24)) (of_Z 1000) = true /\
  R (div (of_Z (10 ^ 24)) (of_Z 1000)) = Some (magnitude 7629394531250000 17) /\
  (magnitude 7629394531250000 17 == pow10 21)%Q /\
  formatCount (Some (of_Z (10 ^ 24))) = "1e+21K+" /\
  formatCount (Some (of_Z (10 ^ 24)))
    <> one_decimal (magnitude 7629394531250000 17) +:+ "K+".
Proof.
  repeat split; try reflexivity.
  vm_compute. discriminate.
Qed.

Lemma exact_quotient_checked :
  forallb
    (fun z =>
       match R (div (of_Z z) (of_Z 1000)) with
       | Some v =>
           ge (of_Z z) (of_Z 1000) && Qltb v (pow10 21) &&
           (Z.abs (100 * nearest_scaled 1 v - z) <=? 50)
       | None => false
       end)
    (map Z.of_nat (seq (Z.to_nat 1000) (Z.to_nat 1000))) = true.
Proof. vm_compute. reflexivity. Qed.

(** On the integer counts from 1000 to 1999, which pass every tie
    [x.x5], the double quotient is finite,
    and the tenth it is rounded to is a tenth nearest to the exact quotient
    [z / 1000] as well. *)
Lemma exact_quotient_nearest_tenth (z : Z) :
  1000 <= z <= 1999 ->
  exists v, R (div (of_Z z) (of_Z 1000)) = Some v /\
            formatCount (Some (of_Z z)) = one_decimal v +:+ "K+" /\
            Z.abs (100 * nearest_scaled 1 v - z) <= 50.
Proof.
  intros Hz. pose proof exact_quotient_checked as Hall.
  rewrite forallb_forall in Hall.
  specialize (Hall z). cbv beta in Hall.
  assert (Hin : In z (map Z.of_nat (seq (Z.to_nat 1000) (Z.to_nat 1000)))).
  { apply in_map_iff. exists (Z.to_nat z). split; [lia|]. apply in_seq. lia. }
  apply Hall in Hin. clear Hall.
  destruct (R (div (of_Z z) (of_Z 1000))) as [v|] eqn:HR; [|discriminate].
  exists v. split; [reflexivity|].
  apply andb_prop in Hin as [Hin Hn]. apply andb_prop in Hin as [Hge Hlt].
  split; [|now apply Z.leb_le].
  apply formatCount_K_one_decimal; [assumption..|].
  now apply Qltb_true.
Qed.

(** ** The life of a component instance *)

Section Lifecycle.

Context {St : Type} (null : St) (endpoint : string).

Local Abbreviation step := (step null endpoint).
Local Abbreviation run := (run null endpoint).
Local Abbreviation consistent := (consistent endpoint).
Local Abbreviation mounted := (mounted endpoint).
Local Abbreviation settled := (settled null endpoint).

Lemma reactions_spec (o : outcome St) (i : instance St) :
  reactions null o i = setState (applied null o) i.
Proof. destruct o as [|status [data|]]; reflexivity. Qed.

(** Settling a pending fetch calls the setter once, with the parsed body
    or with null, and does nothing else. *)
Lemma settle_pending (o : outcome St) (i : instance St) (p : nat) :
  pending i = S p ->
  settle null o i =
    {| state := applied null o; effect_deps := effect_deps i; pending := p;
       requests := requests i; updates := updates i ++ [applied null o];
       unhandled := unhandled i |}.
Proof.
  intros Hp. unfold settle. rewrite Hp, reactions_spec. reflexivity.
Qed.

Lemma settle_idle (o : outcome St) (i : instance St) :
  pending i = 0%nat -> settle null o i = i.
Proof. intros Hp. unfold settle. now rewrite Hp. Qed.

Lemma commit_first (i : instance St) :
  effect_deps i = None ->
  commit endpoint i =
    {| state := state i; effect_deps := Some deps; pending := S (pending i);
       requests := requests i ++ [fetch_request endpoint];
       updates := updates i; unhandled := unhandled i |}.
Proof. intros H. unfold commit. rewrite H. reflexivity. Qed.

Lemma commit_again (i : instance St) :
  effect_deps i = Some deps -> commit endpoint i = i.
Proof.
  intros H. unfold commit. rewrite H. simpl.
  destruct i; simpl in *; now subst.
Qed.

Lemma pending_cases (i : instance St) :
  pending i = 0%nat \/ exists p, pending i = S p.
Proof. destruct (pending i); eauto. Qed.

Lemma consistent_initial (init : St) : consistent (initial init).
Proof. repeat split. Qed.

Lemma consistent_step (i : instance St) (e : event St) :
  consistent i -> consistent (step i e).
Proof.
  intros [Hu Hi]. destruct e as [|o]; simpl.
  - destruct (effect_deps i) as [l|] eqn:Hd.
    + destruct Hi as [-> Hi]. rewrite commit_again by assumption.
      split; [assumption|]. now rewrite Hd.
    + destruct Hi as (Hr & Hp & Hup). rewrite commit_first by assumption.
      split; [assumption|]. simpl. rewrite Hr, Hp, Hup. auto.
  - destruct (pending_cases i) as [Hp|[p Hp]].
    + rewrite settle_idle by assumption. split; [assumption|exact Hi].
    + rewrite (settle_pending o i p Hp). split; [assumption|]. simpl.
      destruct (effect_deps i) as [l|].
      * destruct Hi as (-> & Hr & Hc). repeat split; [assumption|].
        rewrite length_app. simpl. lia.
      * destruct Hi as (_ & Hp' & _). congruence.
Qed.

Lemma run_settled (o : outcome St) (es : list (event St)) :
  run (settled o) es = settled o.
Proof.
  induction es as [|e es IH]; [reflexivity|].
  destruct e; simpl; exact IH.
Qed.

Lemma run_mounted (init : St) (es : list (event St)) :
  run (mounted init) es =
    match first_settle es with
    | Some o => settled o
    | None => mounted init
    end.
Proof.
  induction es as [|e es IH]; [reflexivity|].
  destruct e as [|o]; simpl.
  - exact IH.
  - rewrite (settle_pending o (mounted init) 0 eq_refl). apply run_settled.
Qed.

(** The whole life of an instance, from the events it sees. *)
Lemma run_initial (init : St) (es : list (event St)) :
  run (initial init) es =
    if existsb is_render es then
      match first_outcome es with
      | Some o => settled o
      | None => mounted init
      end
    else initial init.
Proof.
  induction es as [|e es IH]; [reflexivity|].
  destruct e as [|o]; simpl.
  - apply run_mounted.
  - exact IH.
Qed.

End Lifecycle.

(** ** What the two components display *)

(** C4: when the fetch of either component fails (the network rejects, or
    the body is not JSON), the setter is called once with null and nothing
    else changes: no further request, no uncaught rejection; every figure
    then shows its placeholder. *)
Theorem fetch_failure_falls_back (env : option string)
  (h : instance (option Hero.body)) (oh : outcome (option Hero.body))
  (s : instance (option Stats.PlatformStats)) (os : outcome (option Stats.PlatformStats))
  (Hh : pending h <> 0%nat) (Hs : pending s <> 0%nat)
  (Hoh : failed oh = true) (Hos : failed os = true) :
  let h' := Hero.step env h (Settle oh) in
  let s' := Stats.step env s (Settle os) in
  (state h' = None /\ updates h' = updates h ++ [None] /\
   requests h' = requests h /\ unhandled h' = unhandled h /\
   Hero.render (state h') =
     {| Hero.plumbers := "Near you"; Hero.electricians := "On demand";
        Hero.carpenters := "Verified"; Hero.painters := "Top rated" |}) /\
  (state s' = None /\ updates s' = updates s ++ [None] /\
   requests s' = requests s /\ unhandled s' = unhandled s /\
   Stats.render (state s') =
     {| Stats.active_artisans := "—"; Stats.jobs_completed := "—";
        Stats.rating := "New" |}).
Proof.
  intros h' s'. subst h' s'. unfold Hero.step, Stats.step. simpl.
  destruct (pending_cases h) as [?|[ph Hph]]; [contradiction|].
  destruct (pending_cases s) as [?|[ps Hps]]; [contradiction|].
  rewrite (settle_pending None oh h ph Hph), (settle_pending None os s ps Hps).
  simpl.
  assert (Eh : applied None oh = None)
    by (destruct oh as [|? [?|]]; [reflexivity|discriminate|reflexivity]).
  assert (Es : applied None os = None)
    by (destruct os as [|? [?|]]; [reflexivity|discriminate|reflexivity]).
  rewrite Eh, Es. repeat split.
Qed.

Lemma fetch_failure_falls_back_witness :
  state (Hero.run None Hero.init [Render; Settle NetworkError]) = None /\
  state (Stats.run None Stats.init [Render; Settle (Response 200 Rejected)]) = None.
Proof.
  pose proof (fetch_failure_falls_back None
                (Hero.run None Hero.init [Render]) NetworkError
                (Stats.run None Stats.init [Render]) (Response 200 Rejected)
                ltac:(discriminate) ltac:(discriminate) eq_refl eq_refl) as H.
  cbv zeta in H. destruct H as [[Hh _] [Hs _]]. split; assumption.
Defined.

(** C5: over any sequence of renders and network settlements, each
    component sends its request on the first render and never again, and
    the setter is called exactly once, for the first settlement of that
    request, with the parsed body or with null; later settlements find no
    pending promise. *)
Theorem one_fetch_applied_once (env : option string)
  (hs : list (event (option Hero.body)))
  (ss : list (event (option Stats.PlatformStats))) :
  let h := Hero.run env Hero.init hs in
  let s := Stats.run env Stats.init ss in
  ((List.length (requests h) <= 1)%nat /\
   requests h =
     (if existsb is_render hs then [fetch_request (Hero.endpoint env)] else []) /\
   updates h =
     (if existsb is_render hs then
        match first_outcome hs with
        | Some o => [applied None o]
        | None => []
        end
      else []) /\
   state h = List.last (updates h) None /\ unhandled h = 0%nat) /\
  ((List.length (requests s) <= 1)%nat /\
   requests s =
     (if existsb is_render ss then [fetch_request (Stats.endpoint env)] else []) /\
   updates s =
     (if existsb is_render ss then
        match first_outcome ss with
        | Some o => [applied None o]
        | None => []
        end
      else []) /\
   state s = List.last (updates s) None /\ unhandled s = 0%nat).
Proof.
  intros h s. subst h s. unfold Hero.run, Stats.run, Hero.init, Stats.init.
  rewrite !run_initial. split.
  - destruct (existsb is_render hs); [|repeat split; simpl; lia].
    destruct (first_outcome hs); repeat split; simpl; lia.
  - destruct (existsb is_render ss); [|repeat split; simpl; lia].
    destruct (first_outcome ss); repeat split; simpl; lia.
Qed.

(** ** The requests of the page *)

Lemma page_consistent (env : option string) (es : list Page.page_event) :
  consistent (Hero.endpoint env) (Page.hero (Page.run env Page.init es)) /\
  consistent (Stats.endpoint env) (Page.stats (Page.run env Page.init es)).
Proof.
  unfold Page.run.
  assert (H0 : consistent (Hero.endpoint env) (Page.hero Page.init) /\
               consistent (Stats.endpoint env) (Page.stats Page.init))
    by (split; apply consistent_initial).
  revert H0. generalize Page.init.
  induction es as [|e es IH]; intros p [Hh Hs]; [now split|].
  simpl. apply IH.
  destruct e as [[|o]|e']; split; try assumption.
  - exact (consistent_step None _ _ Render Hh).
  - exact (consistent_step None _ _ Render Hs).
  - exact (consistent_step None _ _ (Settle o) Hh).
  - exact (consistent_step None _ _ e' Hs).
Qed.

Lemma consistent_requests {St : Type} (endpoint : string) (i : instance St) :
  consistent endpoint i ->
  requests i = [] \/ requests i = [fetch_request endpoint].
Proof.
  intros [_ H]. destruct (effect_deps i).
  - right. apply H.
  - left. apply H.
Qed.

(** ** The rating slot of Stats *)

(** C8: once the statistics are loaded, the rating slot shows
    "{average_rating to one decimal}★" only for a rating that is present
    and not zero; a null rating and a rating of exactly 0 both show "New",
    so the two cannot be told apart. *)
Theorem rating_zero_shown_as_new (s : Stats.PlatformStats)
  (H : Stats.average_rating s = None \/
       exists r, Stats.average_rating s = Some r /\ strict_eq r (of_Z 0) = true) :
  Stats.rating_slot (Some s) = "New" /\
  forall s' : Stats.PlatformStats,
    Stats.rating_slot (Some s') <> "New" ->
    exists r, Stats.average_rating s' = Some r /\
              strict_eq r (of_Z 0) = false /\
              Stats.rating_slot (Some s') = toFixed 1 r +:+ "★" /\
              forall v, R r = Some v -> (0 <= v)%Q -> (v < pow10 21)%Q ->
                        Stats.rating_slot (Some s') = one_decimal v +:+ "★".
Proof.
  split.
  - unfold Stats.rating_slot. destruct H as [->|(r & -> & Hr)]; [reflexivity|].
    apply strict_eq_zero in Hr as [sg ->]. reflexivity.
  - intros s' Hs'. unfold Stats.rating_slot in *.
    destruct (Stats.average_rating s') as [r|]; [|contradiction].
    exists r. split; [reflexivity|].
    assert (Hb : to_boolean r = true)
      by (destruct (to_boolean r); [reflexivity | contradiction]).
    rewrite Hb. repeat split.
    + destruct r as [sg|sg| |sg m e]; try discriminate; destruct sg; reflexivity.
    + intros v Hv H0 H21. now rewrite (toFixed_one_decimal r v Hv H0 H21).
Qed.

Lemma rating_zero_shown_as_new_witness :
  Stats.rating_slot
    (Some {| Stats.artisan_count := of_Z 12; Stats.completed_bookings := of_Z 3;
             Stats.average_rating := Some (of_Z 0) |}) = "New" /\
  Stats.rating_slot
    (Some {| Stats.artisan_count := of_Z 12; Stats.completed_bookings := of_Z 3;
             Stats.average_rating := None |}) = "New".
Proof.
  split.
  - apply rating_zero_shown_as_new. right. exists (of_Z 0). split; reflexivity.
  - apply rating_zero_shown_as_new. left. reflexivity.
Defined.

(** ** The cards of Hero *)

(** C10, amended: a parsed body is stored as it is. Once [counts] is
    truthy, a trade the body does not carry reads as undefined and its
    card shows "Coming soon", exactly as for a count of 0; while [counts]
    is falsy (null, but also a stored [false], [0] or empty string) the
    card shows its own static text instead. *)
Theorem absent_trade_shows_coming_soon (env : option string)
  (i : instance (option Hero.body)) (status : Z)
  (b : Hero.body) (field placeholder : string)
  (Hp : pending i <> 0%nat)
  (Htrade : In field Hero.trades)
  (Htruthy : Hero.truthy (Some b) = true)
  (Habsent : Hero.get b field = None) :
  let i' := Hero.step env i (Settle (Response status (Fulfilled (Some b)))) in
  state i' = Some b /\
  Hero.card (state i') field placeholder = "Coming soon" /\
  (forall c : Hero.ArtisanCounts,
     Hero.card (Some (Hero.JObject (<[field := of_Z 0]> c))) field placeholder
     = "Coming soon") /\
  (forall counts, Hero.truthy counts = false ->
                  Hero.card counts field placeholder = placeholder) /\
  Hero.render None =
    {| Hero.plumbers := "Near you"; Hero.electricians := "On demand";
       Hero.carpenters := "Verified"; Hero.painters := "Top rated" |}.
Proof.
  intros i'. subst i'.
  destruct (pending_cases i) as [?|[p Hpi]]; [contradiction|].
  assert (Hst : state (Hero.step env i
                         (Settle (Response status (Fulfilled (Some b)))))
                = Some b).
  { unfold Hero.step. simpl. now rewrite (settle_pending None _ i p Hpi). }
  rewrite Hst. repeat split.
  - unfold Hero.card. now rewrite Htruthy, Habsent.
  - intros c. unfold Hero.card. simpl. now rewrite lookup_insert_eq.
  - intros counts Hf. unfold Hero.card. destruct counts; [|reflexivity].
    now rewrite Hf.
Qed.

Lemma absent_trade_shows_coming_soon_witness :
  Hero.plumbers
    (Hero.render
       (state (Hero.run None Hero.init
                 [Render;
                  Settle (Response 200 (Fulfilled (Some (Hero.JObject ∅))))])))
  = "Coming soon".
Proof.
  pose proof (absent_trade_shows_coming_soon None
                (Hero.run None Hero.init [Render]) 200 (Hero.JObject ∅)
                "plumbers" "Near you"
                ltac:(discriminate) ltac:(left; reflexivity) eq_refl eq_refl)
    as H.
  cbv zeta in H. destruct H as (_ & H & _). exact H.
Defined.

(** A body of [0] is stored like any other: [counts] is then not null, no
    trade is present, and yet every card shows its static text. *)
Lemma absent_trade_falsy_body_counterexample :
  state (Hero.run None Hero.init
           [Render; Settle (Response 200 (Fulfilled (Some (Hero.JNumber (of_Z 0)))))])
    = Some (Hero.JNumber (of_Z 0)) /\
  Hero.get (Hero.JNumber (of_Z 0)) "plumbers" = None /\
  Hero.render (Some (Hero.JNumber (of_Z 0))) =
    {| Hero.plumbers := "Near you"; Hero.electricians := "On demand";
       Hero.carpenters := "Verified"; Hero.painters := "Top rated" |} /\
  Hero.plumbers (Hero.render (Some (Hero.JNumber (of_Z 0)))) <> "Coming soon".
Proof. repeat split. discriminate. Qed.

(** ** The three forms of a formatted count *)

(** The last character tells the branch: "Coming soo[n]", "... availabl[e]"
    or "...K[+]". *)
Lemma formatCount_last_char (n : option number) :
  last_char (formatCount n) =
    match n with
    | None => Some "n"%char
    | Some x =>
        if strict_eq x (of_Z 0) then Some "n"%char
        else if ge x (of_Z 1000) then Some "+"%char
        else Some "e"%char
    end.
Proof.
  destruct n as [x|]; [|reflexivity]. unfold formatCount.
  destruct (strict_eq x (of_Z 0)); [reflexivity|].
  destruct (ge x (of_Z 1000)); now rewrite last_char_app.
Qed.

(** X1: "Coming soon" is shown for an undefined count and for a count
    that is [=== 0], and for nothing else: no number of the other two
    branches prints as the placeholder. *)
Theorem formatCount_placeholder_iff (n : option number) :
  formatCount n = "Coming soon" <->
  n = None \/ exists x, n = Some x /\ strict_eq x (of_Z 0) = true.
Proof.
  split.
  - intros E. apply (f_equal last_char) in E.
    rewrite formatCount_last_char in E.
    destruct n as [x|]; [|now left]. right. exists x. split; [reflexivity|].
    destruct (strict_eq x (of_Z 0)); [reflexivity|].
    destruct (ge x (of_Z 1000)); discriminate.
  - intros [->|(x & -> & Hx)]; [reflexivity|].
    unfold formatCount. now rewrite Hx.
Qed.

(** X2: the suffix tells the branch. The result ends in "K+" exactly when
    [n >= 1000] holds (infinity included), and in " available" exactly when
    [n] is neither zero nor at least 1000 (NaN included). *)
Theorem formatCount_suffix_iff (x : number) :
  ((exists p, formatCount (Some x) = p +:+ "K+") <-> ge x (of_Z 1000) = true) /\
  ((exists p, formatCount (Some x) = p +:+ " available") <->
   strict_eq x (of_Z 0) = false /\ ge x (of_Z 1000) = false).
Proof.
  split; split.
  - intros [p E]. apply (f_equal last_char) in E.
    rewrite formatCount_last_char, last_char_app in E by discriminate.
    destruct (strict_eq x (of_Z 0)); [discriminate|].
    destruct (ge x (of_Z 1000)); [reflexivity | discriminate].
  - intros Hge. eexists.
    apply (formatCount_K x (ge_1000_nonzero x Hge) Hge).
  - intros [p E]. apply (f_equal last_char) in E.
    rewrite formatCount_last_char, last_char_app in E by discriminate.
    destruct (strict_eq x (of_Z 0)); [discriminate|].
    destruct (ge x (of_Z 1000)); [discriminate | auto].
  - intros [H0 H1]. eexists. apply (formatCount_otherwise x H0 H1).
Qed.

(** X4: once [counts] is truthy, no card shows its static text any more,
    whatever the body holds: a card that reads the body can always be told
    from one that does not. *)
Theorem loaded_card_differs_from_static (b : Hero.body)
  (Ht : Hero.truthy (Some b) = true) :
  Hero.plumbers (Hero.render (Some b)) <> Hero.plumbers (Hero.render None) /\
  Hero.electricians (Hero.render (Some b)) <> Hero.electricians (Hero.render None) /\
  Hero.carpenters (Hero.render (Some b)) <> Hero.carpenters (Hero.render None) /\
  Hero.painters (Hero.render (Some b)) <> Hero.painters (Hero.render None).
Proof.
  assert (H : forall n s, last_char s = Some "u"%char \/ last_char s = Some "d"%char ->
                          formatCount n <> s).
  { intros n s Hs E. apply (f_equal last_char) in E.
    rewrite formatCount_last_char in E.
    destruct n as [x|];
      [destruct (strict_eq x (of_Z 0)); [|destruct (ge x (of_Z 1000))]|];
      destruct Hs as [Hs|Hs]; congruence. }
  unfold Hero.render, Hero.card. cbn [Hero.plumbers Hero.electricians
    Hero.carpenters Hero.painters]. rewrite Ht.
  repeat split; apply H; auto.
Qed.

Lemma loaded_card_differs_from_static_witness :
  Hero.plumbers (Hero.render (Some Hero.JArray)) <> "Near you".
Proof. apply (loaded_card_differs_from_static Hero.JArray). reflexivity. Defined.

(** X3: the cards read the four trade fields and nothing else: two bodies
    that agree on plumbers, electricians, carpenters and painters give the
    same cards, whatever other fields they carry. *)
Theorem hero_cards_read_four_fields (c c' : Hero.ArtisanCounts)
  (Hpl : c !! "plumbers" = c' !! "plumbers")
  (Hel : c !! "electricians" = c' !! "electricians")
  (Hca : c !! "carpenters" = c' !! "carpenters")
  (Hpa : c !! "painters" = c' !! "painters") :
  Hero.render (Some (Hero.JObject c)) = Hero.render (Some (Hero.JObject c')).
Proof.
  unfold Hero.render, Hero.card. simpl. now rewrite Hpl, Hel, Hca, Hpa.
Qed.

Lemma hero_cards_read_four_fields_witness :
  Hero.render
    (Some (Hero.JObject (<["masons" := of_Z 7]> {["plumbers" := of_Z 3]}))) =
  Hero.render (Some (Hero.JObject {["plumbers" := of_Z 3]})).
Proof.
  apply hero_cards_read_four_fields; reflexivity.
Defined.

(** ** The count slots of Stats *)

Lemma app_assoc_s (a b c : string) : (a +:+ b) +:+ c = a +:+ (b +:+ c).
Proof.
  induction a as [|x a IH]; [reflexivity|].
  rewrite !app_cons_s. now rewrite IH.
Qed.

Lemma app_inv_tail_s (a b t : string) : a +:+ t = b +:+ t -> a = b.
Proof.
  revert b. induction a as [|c a IH]; intros [|c' b] E.
  - reflexivity.
  - apply (f_equal String.length) in E.
    rewrite app_nil_l_s, app_cons_s in E. simpl in E.
    rewrite length_app_s in E. lia.
  - apply (f_equal String.length) in E.
    rewrite app_nil_l_s, app_cons_s in E. simpl in E.
    rewrite length_app_s in E. lia.
  - rewrite !app_cons_s in E. injection E as -> E. f_equal. now apply IH.
Qed.

(** An integer from 0 to 999 prints as its decimal digits. *)
Lemma toString_small_integer (z : Z) :
  0 <= z <= 999 -> toString (of_Z z) = decimal z.
Proof.
  intros Hz. destruct (Z.eq_dec z 0) as [->|Hnz]; [reflexivity|].
  pose proof available_checked as Hall. rewrite forallb_forall in Hall.
  assert (Hin : In z (map Z.of_nat (seq 1 999))).
  { apply in_map_iff. exists (Z.to_nat z). split; [lia|]. apply in_seq. lia. }
  apply Hall, String.eqb_eq in Hin. clear Hall.
  pose proof (f_equal last_char Hin) as Hl.
  rewrite formatCount_last_char, last_char_app in Hl by discriminate.
  destruct (strict_eq (of_Z z) (of_Z 0)) eqn:H0; [discriminate|].
  destruct (ge (of_Z z) (of_Z 1000)) eqn:H1; [discriminate|].
  rewrite (formatCount_otherwise _ H0 H1) in Hin.
  now apply app_inv_tail_s in Hin.
Qed.

(** X5: for integer counts from 0 to 999 the two count slots of the
    loaded widget are the decimal digits followed by "+"; a count of 0 is
    shown as "0+", with no placeholder as in Hero. *)
Theorem stats_counts_on_integers (a b : Z) (r : option number)
  (Ha : 0 <= a <= 999) (Hb : 0 <= b <= 999) :
  let v := Stats.render
             (Some {| Stats.artisan_count := of_Z a;
                      Stats.completed_bookings := of_Z b;
                      Stats.average_rating := r |}) in
  Stats.active_artisans v = decimal a +:+ "+" /\
  Stats.jobs_completed v = decimal b +:+ "+".
Proof.
  simpl. now rewrite !toString_small_integer.
Qed.

Lemma stats_counts_on_integers_witness :
  Stats.active_artisans
    (Stats.render
       (Some {| Stats.artisan_count := of_Z 0;
                Stats.completed_bookings := of_Z 37;
                Stats.average_rating := None |})) = "0+".
Proof.
  apply (stats_counts_on_integers 0 37 None); lia.
Defined.

(** X6: the count slots of loaded statistics never show the dash of the
    unloaded widget. *)
Theorem stats_loaded_counts_never_dash (s : Stats.PlatformStats) :
  Stats.active_artisans (Stats.render (Some s)) <>
    Stats.active_artisans (Stats.render None) /\
  Stats.jobs_completed (Stats.render (Some s)) <>
    Stats.jobs_completed (Stats.render None).
Proof.
  simpl. split; intros E; apply (f_equal last_char) in E;
    rewrite last_char_app in E by discriminate; discriminate.
Qed.

(** ** Ratings near zero and below it *)

Lemma nearest_scaled_small (v : Q) :
  (0 <= v)%Q -> (v < 1 # 20)%Q -> nearest_scaled 1 v = 0.
Proof.
  intros H0 H1. unfold nearest_scaled. rewrite pow10_1.
  change (inject_Z 10) with (10 # 1)%Q.
  pose proof (Qfloor_le (v * (10 # 1) + (1 # 2))) as Hlo.
  pose proof (Qlt_floor (v * (10 # 1) + (1 # 2))) as Hhi.
  set (n := Qfloor (v * (10 # 1) + (1 # 2))) in *.
  assert (Hn1 : (inject_Z n < inject_Z 1)%Q) by (change (inject_Z 1) with 1%Q; lra).
  assert (Hn0 : (inject_Z (-1) < inject_Z n)%Q).
  { rewrite inject_Z_plus in Hhi. change (inject_Z 1) with 1%Q in Hhi.
    change (inject_Z (-1)) with (-1 # 1)%Q. lra. }
  rewrite <- Zlt_Qlt in Hn1, Hn0. lia.
Qed.

Lemma positive_value_truthy (r : number) (v : Q) :
  R r = Some v -> ~ (v == 0)%Q -> to_boolean r = true.
Proof.
  destruct r as [s|s| |s m e]; simpl; try discriminate; [|reflexivity].
  intros [= <-] H. exfalso. apply H. reflexivity.
Qed.

(** X7: a rating above 0 and below one twentieth is truthy, so it is not
    shown as "New"; it rounds to zero tenths and is shown as "0.0★". *)
Theorem rating_below_a_twentieth (s : Stats.PlatformStats) (r : number) (v : Q)
  (Hr : Stats.average_rating s = Some r) (Hv : R r = Some v)
  (H0 : (0 < v)%Q) (H1 : (v < 1 # 20)%Q) :
  Stats.rating_slot (Some s) = "0.0★".
Proof.
  unfold Stats.rating_slot. rewrite Hr.
  rewrite (positive_value_truthy r v Hv) by lra.
  rewrite (toFixed_one_decimal r v Hv); [| lra |].
  - unfold one_decimal. rewrite nearest_scaled_small by lra. reflexivity.
  - eapply Qlt_trans; [exact H1 | reflexivity].
Qed.

Lemma rating_below_a_twentieth_witness :
  Stats.rating_slot
    (Some {| Stats.artisan_count := of_Z 5; Stats.completed_bookings := of_Z 1;
             Stats.average_rating := Some (div (of_Z 1) (of_Z 100)) |})
  = "0.0★".
Proof.
  eapply (rating_below_a_twentieth _ (div (of_Z 1) (of_Z 100))); reflexivity.
Defined.

Lemma toFixed_one_decimal_negative (x : number) (v : Q) :
  R x = Some v -> (v < 0)%Q -> (- v < pow10 21)%Q ->
  toFixed 1 x = "-" +:+ one_decimal (- v).
Proof.
  intros HR H0 H21. unfold toFixed, one_decimal. rewrite HR.
  assert (Hneg : Qltb v 0 = true).
  { unfold Qltb. rewrite Qle_bool_false; [reflexivity | assumption]. }
  rewrite Hneg, (Qle_bool_false _ _ H21). f_equal.
  assert (Hv : (0 <= - v)%Q) by lra.
  pose proof (nearest_scaled_nonneg (- v) Hv) as Hn.
  set (n := nearest_scaled 1 (- v)) in *.
  destruct (Z.eqb_spec n 0) as [->|Hnz]; [reflexivity|].
  destruct (Z.lt_ge_cases n 10) as [Hlt|Hge].
  - rewrite Z.div_small, Z.mod_small by lia.
    rewrite (decimal_small n) by lia. rewrite digit_length.
    change (decimal 0) with "0".
    change (zeros (1 + 1 - 1)) with "0".
    change ((1 <=? 1)%nat) with true. cbv iota.
    change ((1 + 1 - 1)%nat) with (String.length "0").
    now rewrite str_take_app, str_drop_app.
  - rewrite (decimal_step n Hge). rewrite length_app_s, digit_length.
    pose proof (decimal_nonempty (n / 10)) as Hlen.
    destruct (Nat.leb_spec (String.length (decimal (n / 10)) + 1) 1); [lia|].
    replace (String.length (decimal (n / 10)) + 1 - 1)%nat
      with (String.length (decimal (n / 10))) by lia.
    now rewrite str_take_app, str_drop_app.
Qed.

(** X8: a negative rating is not rejected or clamped: it is shown with a
    minus sign, its magnitude to one decimal place, and the star. *)
Theorem rating_negative_is_shown (s : Stats.PlatformStats) (r : number) (v : Q)
  (Hr : Stats.average_rating s = Some r) (Hv : R r = Some v)
  (H0 : (v < 0)%Q) (H1 : (- v < pow10 21)%Q) :
  Stats.rating_slot (Some s) = "-" +:+ one_decimal (- v) +:+ "★".
Proof.
  unfold Stats.rating_slot. rewrite Hr.
  rewrite (positive_value_truthy r v Hv) by lra.
  now rewrite (toFixed_one_decimal_negative r v Hv H0 H1), app_assoc_s.
Qed.

Lemma rating_negative_is_shown_witness :
  Stats.rating_slot
    (Some {| Stats.artisan_count := of_Z 5; Stats.completed_bookings := of_Z 1;
             Stats.average_rating := Some (of_Z (-3)) |})
  = "-3.0★".
Proof.
  refine (rating_negative_is_shown _ (of_Z (-3))
            (- magnitude 6755399441055744 (-51))%Q _ _ _ _); reflexivity.
Defined.

(** ** The response status *)

(** X9: neither component looks at the status of the response: a body
    that parses is applied, and one that does not is replaced by null, in
    the same way under any two status codes. *)
Theorem status_is_never_read (env : option string) (status status' : Z)
  (h : instance (option Hero.body))
  (rh : settlement (option Hero.body))
  (s : instance (option Stats.PlatformStats))
  (rs : settlement (option Stats.PlatformStats)) :
  Hero.step env h (Settle (Response status rh)) =
    Hero.step env h (Settle (Response status' rh)) /\
  Stats.step env s (Settle (Response status rs)) =
    Stats.step env s (Settle (Response status' rs)).
Proof.
  unfold Hero.step, Stats.step. simpl. unfold settle.
  split.
  - destruct (pending h); [reflexivity|]. now rewrite !reactions_spec.
  - destruct (pending s); [reflexivity|]. now rewrite !reactions_spec.
Qed.

(** ** The two components of the page *)

Lemma page_run_projections (env : option string) (p : Page.page)
  (es : list Page.page_event) :
  Page.hero (Page.run env p es) = Hero.run env (Page.hero p) (hero_events es) /\
  Page.stats (Page.run env p es) = Stats.run env (Page.stats p) (stats_events es).
Proof.
  revert p. induction es as [|e es IH]; intros p; [split; reflexivity|].
  unfold Page.run in *. simpl fold_left.
  destruct (IH (Page.step env p e)) as [IHh IHs]. rewrite IHh, IHs.
  destruct e as [[|o]|e']; split; reflexivity.
Qed.

Lemma hero_render_in_events (es : list Page.page_event) :
  In (Page.HeroEvent Render) es ->
  existsb is_render (hero_events es) = true /\
  existsb is_render (stats_events es) = true.
Proof.
  induction es as [|e es IH]; [intros []|]. intros [->|Hin].
  - split; reflexivity.
  - destruct (IH Hin) as [Hh Hs].
    unfold hero_events, stats_events in *. simpl.
    rewrite !existsb_app, Hh, Hs, !orb_true_r. auto.
Qed.

(** C6: the requests of the page are exactly these two, and no other: a
    GET of [API_BASE/api/v1/artisans/counts], sent by Hero when it first
    renders, and a GET of [API_BASE/api/v1/stats/], sent by Stats when it
    first renders, each with no body, no headers and nothing appended to
    the path; [API_BASE] is the value of NEXT_PUBLIC_API_URL, and
    "http://localhost:8000" when it is unset. *)
Theorem only_two_get_requests (env : option string)
  (es : list Page.page_event) :
  let p := Page.run env Page.init es in
  let counts_get :=
    {| method := "GET"; url := API_BASE env +:+ "/api/v1/artisans/counts";
       headers := []; body := None |} in
  let stats_get :=
    {| method := "GET"; url := API_BASE env +:+ "/api/v1/stats/";
       headers := []; body := None |} in
  requests (Page.hero p) =
    (if existsb is_render (hero_events es) then [counts_get] else []) /\
  requests (Page.stats p) =
    (if existsb is_render (stats_events es) then [stats_get] else []) /\
  (In (Page.HeroEvent Render) es ->
   Page.all_requests p = [counts_get; stats_get]) /\
  (forall r, In r (Page.all_requests p) -> r = counts_get \/ r = stats_get) /\
  API_BASE None = "http://localhost:8000" /\
  (forall c s, API_BASE (Some (String c s)) = String c s).
Proof.
  intros p counts_get stats_get.
  destruct (page_run_projections env Page.init es) as [Hh Hs].
  assert (Rh : requests (Page.hero p) =
               (if existsb is_render (hero_events es) then [counts_get] else [])).
  { subst p. rewrite Hh. unfold Hero.run. simpl Page.hero. unfold Hero.init.
    rewrite run_initial. destruct (existsb is_render (hero_events es));
      [|reflexivity]. destruct (first_outcome (hero_events es)); reflexivity. }
  assert (Rs : requests (Page.stats p) =
               (if existsb is_render (stats_events es) then [stats_get] else [])).
  { subst p. rewrite Hs. unfold Stats.run. simpl Page.stats. unfold Stats.init.
    rewrite run_initial. destruct (existsb is_render (stats_events es));
      [|reflexivity]. destruct (first_outcome (stats_events es)); reflexivity. }
  split; [exact Rh|]. split; [exact Rs|]. split; [|split; [|split]].
  - intros Hin. destruct (hero_render_in_events es Hin) as [Eh Es].
    unfold Page.all_requests. now rewrite Rh, Rs, Eh, Es.
  - intros r Hr. unfold Page.all_requests in Hr. rewrite Rh, Rs in Hr.
    apply in_app_or in Hr.
    destruct (existsb is_render (hero_events es)),
             (existsb is_render (stats_events es));
      destruct Hr as [Hr|Hr]; simpl in Hr; intuition.
  - reflexivity.
  - reflexivity.
Qed.

Lemma only_two_get_requests_witness :
  Page.all_requests (Page.run None Page.init [Page.HeroEvent Render]) =
    [ {| method := "GET";
         url := "http://localhost:8000/api/v1/artisans/counts";
         headers := []; body := None |};
      {| method := "GET";
         url := "http://localhost:8000/api/v1/stats/";
         headers := []; body := None |} ].
Proof.
  pose proof (only_two_get_requests None [Page.HeroEvent Render]) as H.
  cbv zeta in H. destruct H as (_ & _ & H & _).
  apply H. left. reflexivity.
Defined.

(** X11: as soon as Hero has rendered once, the page has sent exactly the
    two requests, one by Hero and one by its Stats child, whatever else
    happens. *)
Theorem hero_render_sends_both (env : option string)
  (es : list Page.page_event) (H : In (Page.HeroEvent Render) es) :
  Page.all_requests (Page.run env Page.init es) =
    [fetch_request (Hero.endpoint env); fetch_request (Stats.endpoint env)].
Proof.
  destruct (page_run_projections env Page.init es) as [Hh Hs].
  destruct (hero_render_in_events es H) as [Rh Rs].
  unfold Page.all_requests. rewrite Hh, Hs.
  unfold Hero.run, Stats.run, Hero.init, Stats.init. simpl Page.hero. simpl Page.stats.
  unfold Hero.init, Stats.init.
  rewrite !run_initial, Rh, Rs.
  destruct (first_outcome (hero_events es)), (first_outcome (stats_events es));
    reflexivity.
Qed.

Lemma hero_render_sends_both_witness :
  Page.all_requests
    (Page.run None Page.init
       [Page.HeroEvent Render; Page.StatsEvent (Settle NetworkError)]) =
    [fetch_request "http://localhost:8000/api/v1/artisans/counts";
     fetch_request "http://localhost:8000/api/v1/stats/"].
Proof.
  apply (hero_render_sends_both None). left. reflexivity.
Defined.

(** ** The static Hero *)

(** X12: unless the first outcome of its fetch is a parsed body that is
    not null, the fetching Hero shows exactly the cards of the static
    Hero, at every point of every run. *)
Theorem hero_falls_back_to_static (env : option string)
  (es : list (event (option Hero.body)))
  (H : forall status c,
         first_outcome es <> Some (Response status (Fulfilled (Some c)))) :
  Hero.render (state (Hero.run env Hero.init es)) = StaticHero.render.
Proof.
  unfold Hero.run, Hero.init. rewrite run_initial.
  destruct (existsb is_render es); [|reflexivity].
  destruct (first_outcome es) as [o|]; [|reflexivity].
  destruct o as [|status [[c|]|]]; try reflexivity.
  exfalso. exact (H status c eq_refl).
Qed.

Lemma hero_falls_back_to_static_witness :
  Hero.render
    (state (Hero.run None Hero.init
              [Render; Settle (Response 500 Rejected);
               Settle (Response 200 (Fulfilled (Some (Hero.JObject ∅))))]))
  = StaticHero.render.
Proof.
  apply hero_falls_back_to_static. intros status c. discriminate.
Defined.

(** ** The base address *)

(** X13: the base address is never empty (an empty variable gives the
    default) and is not normalised: a value ending in a slash gives a
    double slash in both request addresses. *)
Theorem api_base_used_verbatim (env : option string) (s : string) :
  API_BASE env <> "" /\
  API_BASE (Some "") = API_BASE None /\
  Hero.endpoint (Some (s +:+ "/")) = s +:+ "//api/v1/artisans/counts" /\
  Stats.endpoint (Some (s +:+ "/")) = s +:+ "//api/v1/stats/".
Proof.
  assert (Hb : API_BASE (Some (s +:+ "/")) = s +:+ "/")
    by (destruct s; reflexivity).
  unfold Hero.endpoint, Stats.endpoint. rewrite Hb, !app_assoc_s.
  repeat split. destruct env as [[|c t]|]; discriminate.
Qed.

(** ** Counts in the thousands against the exact quotient *)

(** X14: for every integer count from 1000 to 1999 the figure shown before
    "K+" is a number of tenths [t] written with one decimal place, and it
    lies within one twentieth of the exact quotient [z / 1000]: the
    rounding of the double division never moves it to another tenth than
    a nearest one. *)
Theorem thousands_within_a_twentieth (z : Z) (H : 1000 <= z <= 1999) :
  exists t, 10 <= t <= 20 /\
            formatCount (Some (of_Z z)) =
              decimal (t / 10) +:+ "." +:+ digit (t mod 10) +:+ "K+" /\
            Z.abs (100 * t - z) <= 50.
Proof.
  destruct (exact_quotient_nearest_tenth z H) as (v & _ & Hf & Hn).
  exists (nearest_scaled 1 v). split; [lia|]. split; [|assumption].
  rewrite Hf. unfold one_decimal. now rewrite !app_assoc_s.
Qed.

Lemma thousands_within_a_twentieth_witness :
  exists t, 10 <= t <= 20 /\
            formatCount (Some (of_Z 1150)) =
              decimal (t / 10) +:+ "." +:+ digit (t mod 10) +:+ "K+" /\
            Z.abs (100 * t - 1150) <= 50.
Proof. apply (thousands_within_a_twentieth 1150). lia. Defined.
